(** * container-build: option resolution and mount resolution

    A shallow embedding of [src/container_build.py]: the [ConfigMerger]
    and [Options] classes (command line, environment, config file and
    default merged into one option set), [collect_volumes] (host paths to
    container bind mounts) and the part of [main] that runs before the
    first external process.

    Python values are a tagged union, exceptions are the [Raise] side of a
    result type, and everything the program reads from its surroundings
    (environment, file system, effective ids) is one [World] record. *)

From Stdlib Require Import ZArith Ascii Permutation.
From stdpp Require Import base option list strings pretty gmap fin_maps.

(** ** Python values and exceptions *)

(** The values an option can hold: [None], [True]/[False], an [int], a
    [str], or a [list]. *)
#[warnings="-register-all"]
Inductive value : Type :=
  | VNone
  | VBool (b : bool)
  | VInt (z : Z)
  | VStr (s : string)
  | VList (l : list value).

(** [configparser.Error] subclasses raised while a file is parsed. *)
Inductive ini_error : Type :=
  | MissingSectionHeaderError
  | ParsingError
  | DuplicateSectionError
  | DuplicateOptionError.

(** The exceptions the modelled code meets. [FileNotFoundError] is a
    subclass of [OSError]; [OSError] stands for every other subclass.
    [exit(code)] raises [SystemExit]; it carries what was printed to
    standard error just before. *)
Inductive exn : Type :=
  | FileNotFoundError (what : string)
  | OSError (what : string)
  | TypeError
  | ValueError
  | RuntimeError
  | ConfigParserError (e : ini_error)
  | SystemExit (code : Z) (stderr : string).

Definition is_OSError (e : exn) : bool :=
  match e with
  | FileNotFoundError _ | OSError _ => true
  | _ => false
  end.

Definition is_FileNotFoundError (e : exn) : bool :=
  match e with
  | FileNotFoundError _ => true
  | _ => false
  end.

(** The message of an exception as an f-string prints it. *)
Definition exn_str (e : exn) : string :=
  match e with
  | FileNotFoundError s | OSError s => s
  | TypeError => "TypeError"
  | ValueError => "ValueError"
  | RuntimeError => "RuntimeError"
  | ConfigParserError _ => "configparser.Error"
  | SystemExit _ _ => "SystemExit"
  end.

(** A computation that returns or raises. *)
Inductive res (A : Type) : Type :=
  | Ok (a : A)
  | Raise (e : exn).
Arguments Ok {A} a.
Arguments Raise {A} e.

#[global] Instance res_ret : MRet res := fun _ a => Ok a.
#[global] Instance res_bind : MBind res := fun _ _ f m =>
  match m with
  | Ok a => f a
  | Raise e => Raise e
  end.

(** [for x in xs: body], the loop state threaded through [body], stopping
    at the first exception. *)
Fixpoint for_each {A S : Type} (body : S → A → res S) (xs : list A) (s : S)
  : res S :=
  match xs with
  | [] => Ok s
  | x :: xs' => s' ← body s x; for_each body xs' s'
  end.

(** Truthiness, as [if v:] and [v or w] test it. *)
Definition truthy (v : value) : bool :=
  match v with
  | VNone => false
  | VBool b => b
  | VInt z => negb (z =? 0)%Z
  | VStr s => negb (String.eqb s "")
  | VList l => match l with [] => false | _ => true end
  end.

Definition is_None (v : value) : bool :=
  match v with VNone => true | _ => false end.

(** [v == 0]: ints compare by value, [bool] is an [int] subclass
    ([False == 0]), and a [str], a [list] or [None] never equals [0]. *)
Definition eq_zero (v : value) : bool :=
  match v with
  | VInt z => (z =? 0)%Z
  | VBool b => negb b
  | _ => false
  end.

(** [str(v)] inside an f-string, for the scalars. *)
Definition scalar_str (v : value) : option string :=
  match v with
  | VNone => Some "None"
  | VBool true => Some "True"
  | VBool false => Some "False"
  | VInt z => Some (pretty z)
  | VStr s => Some s
  | VList _ => None
  end.

(** Iterating a value: a list yields its items, a [str] its characters
    one by one, anything else is not iterable. *)
Fixpoint chars (s : string) : list value :=
  match s with
  | EmptyString => []
  | String c r => VStr (String c EmptyString) :: chars r
  end.

Definition py_iter (v : value) : res (list value) :=
  match v with
  | VList l => Ok l
  | VStr s => Ok (chars s)
  | _ => Raise TypeError
  end.

(** ** Strings *)

Definition is_upper (c : ascii) : bool :=
  (65 <=? nat_of_ascii c) && (nat_of_ascii c <=? 90).

(** [str.lower] on the ASCII letters; other bytes are kept. *)
Definition lower_char (c : ascii) : ascii :=
  if is_upper c then ascii_of_nat (nat_of_ascii c + 32) else c.

Fixpoint lower (s : string) : string :=
  match s with
  | EmptyString => EmptyString
  | String c r => String (lower_char c) (lower r)
  end.

(** [s.replace(a, b)] for single characters. *)
Fixpoint replace (a b : ascii) (s : string) : string :=
  match s with
  | EmptyString => EmptyString
  | String c r => String (if Ascii.eqb c a then b else c) (replace a b r)
  end.

(** [s.split('/')]. *)
Fixpoint split_slash (s : string) : list string :=
  match s with
  | EmptyString => [EmptyString]
  | String c r =>
      if Ascii.eqb c "/" then EmptyString :: split_slash r
      else match split_slash r with
           | x :: xs => String c x :: xs
           | [] => [String c EmptyString]
           end
  end.

(** ['/'.join(parts)]. *)
Fixpoint join_slash (parts : list string) : string :=
  match parts with
  | [] => ""
  | [x] => x
  | x :: rest => x +:+ "/" +:+ join_slash rest
  end.

(** [\s] of the [re] module on the ASCII range. *)
Definition is_space (c : ascii) : bool :=
  let n := nat_of_ascii c in
  ((9 <=? n) && (n <=? 13)) || ((28 <=? n) && (n <=? 32)).

(** [[t for t in re.split(r'\s+', s) if t]]: the maximal runs of
    non-space characters. [cur] is the run being read, reversed. *)
Fixpoint tokens_go (s : string) (cur : list ascii) : list string :=
  let flush rest :=
    match cur with
    | [] => rest
    | _ => String.string_of_list_ascii (rev cur) :: rest
    end in
  match s with
  | EmptyString => flush []
  | String c r =>
      if is_space c then flush (tokens_go r [])
      else tokens_go r (c :: cur)
  end.

Definition tokens (s : string) : list string := tokens_go s [].

(** ** Paths ([pathlib.PurePosixPath]) *)

(** A parsed path: its root (empty, one slash or two slashes) and its
    components, none of them empty or a single dot. *)
Record PurePath : Type := MkPath { root : string; parts : list string }.

(** [splitroot]: the leading slashes become the root; exactly two
    leading slashes are kept as a two-slash root, any other number
    collapses to one. *)
Fixpoint lstrip_slash (s : string) : string :=
  match s with
  | String c r => if Ascii.eqb c "/" then lstrip_slash r else s
  | EmptyString => s
  end.

Definition splitroot (part : string) : string * string :=
  match part with
  | String c _ =>
      if Ascii.eqb c "/" then
        let stripped := lstrip_slash part in
        if Nat.eqb (String.length part - String.length stripped) 2
        then ("//", stripped) else ("/", stripped)
      else ("", part)
  | EmptyString => ("", part)
  end.

Definition keep_component (x : string) : bool :=
  negb (String.eqb x "") && negb (String.eqb x ".").

Definition components (rel : string) : list string :=
  List.filter keep_component (split_slash rel).

(** One more segment joined to a path: an empty segment is skipped, a
    rooted segment replaces what came before, a relative one is
    appended. *)
Definition joinpath (p : PurePath) (part : string) : PurePath :=
  match part with
  | EmptyString => p
  | _ =>
      let '(r, rel) := splitroot part in
      match r with
      | EmptyString => MkPath (root p) (parts p ++ components rel)
      | _ => MkPath r (components rel)
      end
  end.

(** [Path(seg1, seg2, ...)] over [str] segments. *)
Definition Path (segments : list string) : PurePath :=
  foldl joinpath (MkPath "" []) segments.

(** [p.name]: the last component, empty when there is none. *)
Definition name (p : PurePath) : string := List.last (parts p) "".

(** [str(p)]. *)
Definition path_str (p : PurePath) : string :=
  match root p, parts p with
  | EmptyString, [] => "."
  | r, ps => r +:+ join_slash ps
  end.

(** [Path(v)] of a Python value: only a [str] is accepted. *)
Definition as_str (v : value) : res string :=
  match v with
  | VStr s => Ok s
  | _ => Raise TypeError
  end.

(** [os.path.join(d, n)] for a name [n] without a leading slash. *)
Definition os_path_join (d n : string) : string :=
  match d with
  | EmptyString => n
  | _ => if String.eqb (String.substring (String.length d - 1) 1 d) "/"
         then d +:+ n else d +:+ "/" +:+ n
  end.

(** ** The world the program runs in *)

(** An entry of [os.scandir]: its name and what [is_symlink()] and
    [is_dir()] (which follows symlinks) answer. *)
Record DirEntry : Type := MkDirEntry {
  de_name : string;
  de_is_symlink : bool;
  de_is_dir : bool
}.

(** What [open] and [os.listdir] are handed: a path or, for an [int]
    (and so for [True]), a file descriptor. *)
Inductive fsarg : Type :=
  | ByPath (p : string)
  | ByFd (fd : Z).

Definition as_fsarg (v : value) : res fsarg :=
  match v with
  | VStr s => Ok (ByPath s)
  | VInt z => Ok (ByFd z)
  | VBool b => Ok (ByFd (if b then 1 else 0))
  | _ => Raise TypeError
  end.

(** The active part of a parsed ini file as [configparser] holds it:
    the sections in file order, each a map from key to value ([None] for
    a key written without [=value]), and the [DEFAULT] section. Keys are
    stored lower-cased ([optionxform]). *)
Record ConfigParser : Type := MkConfigParser {
  cp_sections : list (string * gmap string (option string));
  cp_defaults : gmap string (option string)
}.

(** What is found at a config file path. *)
Inductive ini_file : Type :=
  | IniUnreadable
  | IniMalformed (e : ini_error)
  | IniParsed (cp : ConfigParser).

Record World : Type := MkWorld {
  w_environ : gmap string string;
  w_exists : string → bool;
  w_ini : string → ini_file;
  w_geteuid : Z;
  w_getegid : Z;
  w_cwd : string;
  w_resolve : string → option string;
  w_is_dir : string → bool;
  w_scandir : string → res (list DirEntry);
  w_read : fsarg → res string;
  w_listdir : fsarg → res (list string)
}.

(** ** [configparser.ConfigParser(allow_no_value=True)] *)

Definition empty_parser : ConfigParser := MkConfigParser [] ∅.

(** [config.read(path)]: a file that cannot be opened is skipped
    silently, a parsing error is raised to the caller, otherwise the
    parser holds the file's sections. *)
Definition config_read (w : World) (path : string) : res ConfigParser :=
  match w_ini w path with
  | IniUnreadable => Ok empty_parser
  | IniMalformed e => Raise (ConfigParserError e)
  | IniParsed cp => Ok cp
  end.

(** [config.sections()]: the section names, [DEFAULT] left out. *)
Definition sections (cp : ConfigParser) : list string :=
  map fst (cp_sections cp).

Fixpoint assoc {A : Type} (k : string) (l : list (string * A)) : option A :=
  match l with
  | [] => None
  | (k', a) :: l' => if String.eqb k k' then Some a else assoc k l'
  end.

(** [optionxform]: option names are lower-cased before they are compared. *)
Definition optionxform (optionstr : string) : string := lower optionstr.

Definition DEFAULTSECT : string := "DEFAULT".

(** [config.has_option(section, option)]. *)
Definition has_option (cp : ConfigParser) (section opt : string) : bool :=
  if String.eqb section "" || String.eqb section DEFAULTSECT then
    bool_decide (is_Some (cp_defaults cp !! optionxform opt))
  else
    match assoc section (cp_sections cp) with
    | None => false
    | Some sect =>
        bool_decide (is_Some (sect !! optionxform opt))
        || bool_decide (is_Some (cp_defaults cp !! optionxform opt))
    end.

(** [config.get(section, option)] where [has_option] holds: the section's
    own entry shadows the one of [DEFAULT]; [None] is a key without a
    value. Values are held as [get] hands them out (its interpolation
    leaves a value without a percent sign as it is). *)
Definition config_get (cp : ConfigParser) (section opt : string)
  : option string :=
  let sect := default ∅ (assoc section (cp_sections cp)) in
  match sect !! optionxform opt with
  | Some v => v
  | None => default None (cp_defaults cp !! optionxform opt)
  end.

(** ** Module constants *)

Definition CONFIG_DIRECTORY : string := "container-build".

Definition DEFAULT_APT_KEYS : string :=
  path_str (Path [CONFIG_DIRECTORY; "apt-keys"]).
Definition DEFAULT_APT_SOURCES_FILE : string :=
  path_str (Path [CONFIG_DIRECTORY; "sources.list"]).
Definition DEFAULT_BASE_IMAGE : string := "debian:stretch-slim".
Definition DEFAULT_CONFIG_FILE : string :=
  path_str (Path [CONFIG_DIRECTORY; "build.cfg"]).
Definition DEFAULT_DOCKER : string := "docker".
Definition DEFAULT_DOCKER_HOST : string := "unix:///var/run/docker.sock".
Definition DEFAULT_DOCKER_RUN_FLAGS : string :=
  "--interactive --tty --rm --env LC_ALL=C.UTF-8".
Definition DEFAULT_HOME_DIR : string := "/home/build".
Definition DEFAULT_INSTALL_SCRIPT : string :=
  path_str (Path [CONFIG_DIRECTORY; "install.sh"]).
Definition DEFAULT_PACKAGES_FILE : string :=
  path_str (Path [CONFIG_DIRECTORY; "packages"]).
Definition DEFAULT_SHELL : string := "/bin/bash".
Definition DEFAULT_USERNAME : string := "build".
Definition DEFAULT_WORK_DIR : string := "src".

Definition SCRIPTS_DIR : string := "scripts".
Definition APT_KEYS_DIR : string := "apt-keys".

(** ** [arg_parser] *)

(** The attributes of the namespace [parse_args] returns: one per
    [add_argument], named after the long option with dashes turned into
    underscores. *)
Definition arg_dests : list string :=
  [ "command"; "config_file"; "no_config_file"; "name"; "directory";
    "install_script"; "no_install_script"; "base_image"; "package";
    "packages_file"; "apt_sources_file"; "no_apt_sources_file"; "apt_keys";
    "no_apt_keys"; "uid"; "gid"; "username"; "home_dir"; "shell"; "work_dir";
    "mount"; "no_recursive_mount"; "docker_passthrough"; "verbose" ].

(** [getattr(args, attr, None)]. *)
Definition getattr (args : gmap string value) (attr : string) : value :=
  default VNone (args !! attr).

(** ** [ConfigMerger] *)

(** [config] and [config_section] are set together, so they are one
    optional pair. *)
Record ConfigMerger : Type := MkConfigMerger {
  cm_args : gmap string value;
  cm_config : option (ConfigParser * string);
  cm_config_file : value
}.

(** A [default] callable, or [None]. *)
Definition thunk : Type := option (unit → value).

Definition get_or_else (self : ConfigMerger) (nm : string) (dflt : thunk)
  : value :=
  let arg := getattr (cm_args self) (replace "-" "_" nm) in
  if negb (is_None arg) then arg
  else
    let from_config :=
      match cm_config self with
      | Some (config, config_section) =>
          if has_option config config_section nm then
            match config_get config config_section nm with
            | Some config_value => Some (VStr config_value)
            | None => Some (VBool true)
            end
          else None
      | None => None
      end in
    match from_config with
    | Some v => v
    | None =>
        match dflt with
        | Some f => f ()
        | None => VNone
        end
    end.

Definition get (self : ConfigMerger) (nm : string) (dflt : value) : value :=
  get_or_else self nm (Some (fun _ => dflt)).

Definition get_flag (self : ConfigMerger) (nm : string) : bool :=
  match get self nm VNone with
  | VBool b => b
  | v => negb (is_None v)
  end.

Definition get_list (self : ConfigMerger) (nm : string) : list value :=
  match get self nm (VList []) with
  | VList l => l
  | VNone => []
  | v => [v]
  end.

Definition get_env (w : World) (self : ConfigMerger) (nm : string)
    (dflt : value) : value :=
  match w_environ w !! nm with
  | Some env => VStr env
  | None => get self (lower nm) dflt
  end.

(** The [default] argument of [get_file]: [None], one path or a list of
    candidate paths. *)
Inductive file_default : Type :=
  | NoDefault
  | OnePath (p : string)
  | Candidates (ps : list string).

Definition get_file (w : World) (self : ConfigMerger) (nm : string)
    (dflt : file_default) : value :=
  let arg := get self nm VNone in
  if negb (is_None arg) then arg
  else
    let suppressed :=
      match dflt with
      | NoDefault => true
      | _ => truthy (get self ("no-" +:+ nm) VNone)
      end in
    if suppressed then VNone
    else
      match dflt with
      | Candidates ps =>
          let present := List.filter (w_exists w) ps in
          if truthy (VList (map VStr present)) then VList (map VStr present)
          else VNone
      | OnePath p => if w_exists w p then VStr p else VNone
      | NoDefault => VNone
      end.

(** [ConfigMerger.__init__]. While the config file is looked up
    [self.config] is still [None]. The parser is asked to read one file
    name (a [str]); any other value is not a file name. *)
Definition ConfigMerger_init (w : World) (args : gmap string value)
  : res ConfigMerger :=
  let self := MkConfigMerger args None VNone in
  let config_file := get_file w self "config-file" (OnePath DEFAULT_CONFIG_FILE) in
  let self := MkConfigMerger args None config_file in
  if is_None config_file then Ok self
  else
    path ← as_str config_file;
    config ← config_read w path;
    match sections config with
    | [] => Ok self
    | first :: _ => Ok (MkConfigMerger args (Some (config, first)) config_file)
    end.

(** ** [Options] *)

Definition is_digit (c : ascii) : bool :=
  (48 <=? nat_of_ascii c) && (nat_of_ascii c <=? 57).

Fixpoint all_space (s : string) : bool :=
  match s with
  | EmptyString => true
  | String c r => is_space c && all_space r
  end.

Fixpoint lstrip_space (s : string) : string :=
  match s with
  | String c r => if is_space c then lstrip_space r else s
  | EmptyString => s
  end.

(** The digits of an [int] literal: single underscores are allowed
    between digits, trailing white space is ignored. [seen] tells
    whether the previous character was a digit. *)
Fixpoint int_digits (s : string) (acc : Z) (seen : bool) : option Z :=
  match s with
  | EmptyString => if seen then Some acc else None
  | String c r =>
      if is_digit c then
        int_digits r (acc * 10 + Z.of_nat (nat_of_ascii c - 48))%Z true
      else if Ascii.eqb c "_" then
        if seen then int_digits r acc false else None
      else if is_space c then
        if seen && all_space r then Some acc else None
      else None
  end.

Definition int_of_string (s : string) : option Z :=
  match lstrip_space s with
  | String "-" r => Z.opp <$> int_digits r 0 false
  | String "+" r => int_digits r 0 false
  | r => int_digits r 0 false
  end.

(** [int(v)]. *)
Definition py_int (v : value) : res Z :=
  match v with
  | VInt z => Ok z
  | VBool b => Ok (if b then 1 else 0)%Z
  | VStr s =>
      match int_of_string s with
      | Some z => Ok z
      | None => Raise ValueError
      end
  | _ => Raise TypeError
  end.

Record Options : Type := MkOptions {
  apt_keys : value;
  apt_sources_file : value;
  base_image : value;
  command : value;
  directory : value;
  docker : value;
  docker_host : value;
  docker_passthrough : bool;
  docker_run_flags : value;
  gid : value;
  image_name : value;
  home_dir : value;
  install_script : value;
  mount : value;
  no_recursive_mount : bool;
  package : list value;
  packages_file : value;
  uid : value;
  username : value;
  shell : value;
  verbose : Z;
  work_dir : value
}.

(** [infer_name]: the name of the current directory with [-builder]
    appended. *)
Definition infer_name (w : World) : value :=
  VStr (name (Path [w_cwd w]) +:+ "-builder").

(** [Options.__init__]. Only [int(...)] around [verbose] can raise. *)
Definition Options_init (w : World) (config : ConfigMerger) : res Options :=
  verbose_int ← py_int (get config "verbose" (VInt 0));
  Ok {|
    apt_keys := get_file w config "apt-keys" (OnePath DEFAULT_APT_KEYS);
    apt_sources_file :=
      get_file w config "apt-sources-file" (OnePath DEFAULT_APT_SOURCES_FILE);
    base_image := get config "base-image" (VStr DEFAULT_BASE_IMAGE);
    command := get config "command" VNone;
    directory := get config "directory" VNone;
    docker := get_env w config "DOCKER" (VStr DEFAULT_DOCKER);
    docker_host := get_env w config "DOCKER_HOST" (VStr DEFAULT_DOCKER_HOST);
    docker_passthrough := get_flag config "docker-passthrough";
    docker_run_flags :=
      get_env w config "DOCKER_RUN_FLAGS" (VStr DEFAULT_DOCKER_RUN_FLAGS);
    gid := get_or_else config "gid" (Some (fun _ => VInt (w_getegid w)));
    image_name := get_or_else config "name" (Some (fun _ => infer_name w));
    home_dir := get config "home-dir" (VStr DEFAULT_HOME_DIR);
    install_script :=
      get_file w config "install-script" (Candidates [DEFAULT_INSTALL_SCRIPT]);
    mount := get config "mount" (VList [VStr "."]);
    no_recursive_mount := get_flag config "no-recursive-mount";
    package := get_list config "package";
    packages_file := get config "packages-file" (VStr DEFAULT_PACKAGES_FILE);
    uid := get_or_else config "uid" (Some (fun _ => VInt (w_geteuid w)));
    username := get config "username" (VStr DEFAULT_USERNAME);
    shell := get config "shell" (VStr DEFAULT_SHELL);
    verbose := verbose_int;
    work_dir := get config "work-dir" (VStr DEFAULT_WORK_DIR)
  |}.

(** ** [collect_volumes] *)

(** [Path(...).resolve()]: the canonical absolute path, or a
    [RuntimeError] on a symlink loop. No [strict=True] is passed, so a
    path that does not exist resolves as well. *)
Definition resolve (w : World) (p : PurePath) : res string :=
  match w_resolve w (path_str p) with
  | Some s => Ok s
  | None => Raise RuntimeError
  end.

(** The inner loop: one scanned entry of a mounted directory. *)
Definition visit_subdir (w : World) (mount_src : string) (mount_dst : PurePath)
    (volumes : gmap string string) (subdir : DirEntry)
  : res (gmap string string) :=
  if de_is_symlink subdir && de_is_dir subdir then
    subdir_src ← resolve w (Path [os_path_join mount_src (de_name subdir)]);
    let subdir_dst := joinpath mount_dst (de_name subdir) in
    Ok (<[subdir_src := path_str subdir_dst]> volumes)
  else Ok volumes.

(** The outer loop body for a mount argument that is a [str]. *)
Definition visit_path (w : World) (work_dir : string) (recursive : bool)
    (volumes : gmap string string) (mount_arg_str : string)
  : res (gmap string string) :=
  let mount_arg := Path [mount_arg_str] in
  mount_src ← resolve w mount_arg;
  let mount_dst := Path [work_dir; name mount_arg] in
  let volumes := <[mount_src := path_str mount_dst]> volumes in
  if recursive && w_is_dir w mount_src then
    subdirs ← w_scandir w mount_src;
    for_each (visit_subdir w mount_src mount_dst) subdirs volumes
  else Ok volumes.

(** The outer loop body: [Path(mount_arg_str)] wants a [str]. *)
Definition visit_mount (w : World) (work_dir : string) (recursive : bool)
    (volumes : gmap string string) (mount_arg_str : value)
  : res (gmap string string) :=
  s ← as_str mount_arg_str;
  visit_path w work_dir recursive volumes s.

(** [collect_volumes(mount_args, work_dir, recursive)]. The dict is a
    finite map: the order in which keys were first inserted is not kept. *)
Definition collect_volumes (w : World) (mount_args : value)
    (work_dir : string) (recursive : bool) : res (gmap string string) :=
  items ← py_iter mount_args;
  for_each (visit_mount w work_dir recursive) items ∅.

(** A list of [str], as [--mount] collects them. *)
Definition str_list (l : list string) : value := VList (VStr <$> l).

(** ** [main], up to the first external process *)

Definition read_packages (w : World) (packages_path : value)
  : res (list string) :=
  f ← as_fsarg packages_path;
  text ← w_read w f;
  Ok (tokens text).

(** [try: body except C as ex: print(msg ex); exit(1)]. *)
Definition or_exit {A : Type} (caught : exn → bool) (msg : exn → string)
    (body : res A) : res A :=
  match body with
  | Ok a => Ok a
  | Raise e => if caught e then Raise (SystemExit 1 (msg e)) else Raise e
  end.

(** The local variables of [main] when the mounts have been resolved. *)
Record MainState : Type := MkMainState {
  ms_opts : Options;
  ms_packages : list string;
  ms_apt_sources : option string;
  ms_apt_keys_src : option (list PurePath);
  ms_apt_keys : option (list PurePath);
  ms_install_scripts : list PurePath;
  ms_work_dir : string;
  ms_volumes : gmap string string
}.

Definition ROOT_MESSAGE : string :=
  "Cannot run command as root in container (use the --uid and --gid arguments).".

(** [main] from the parsed arguments to the resolved mounts (lines 29 to
    82). Nothing in this part starts a process: [subprocess.run] is only
    reached through [run_docker], at the end of what follows. The
    informational message printed when [verbose >= 1] is left out. *)
Definition main (w : World) (args : gmap string value) : res MainState :=
  config ← ConfigMerger_init w args;
  opts ← Options_init w config;
  packages ← or_exit is_OSError
    (fun ex => "Error opening packages file '"
               +:+ default "" (scalar_str (packages_file opts))
               +:+ "': " +:+ exn_str ex)
    (read_packages w (packages_file opts));
  packages ← for_each
    (fun acc package_arg => s ← as_str package_arg; Ok (acc ++ tokens s))
    (package opts) packages;
  apt_sources ←
    (if is_None (apt_sources_file opts) then Ok None
     else s ← as_str (apt_sources_file opts); Ok (Some (name (Path [s]))));
  apt_keys_pair ←
    (if is_None (apt_keys opts) then Ok (None, None)
     else
       d ← as_fsarg (apt_keys opts);
       names ← w_listdir w d;
       '(srcs, dsts) ← for_each
         (fun '(srcs, dsts) apt_key_name =>
            dir ← as_str (apt_keys opts);
            Ok (srcs ++ [Path [dir; apt_key_name]],
                dsts ++ [Path [APT_KEYS_DIR; apt_key_name]]))
         names ([], []);
       Ok (Some srcs, Some dsts));
  install_scripts_src ←
    py_iter (if truthy (install_script opts) then install_script opts
             else VList []);
  install_scripts ← for_each
    (fun acc '(install_script_index, install_script_src) =>
       s ← as_str install_script_src;
       let install_script_name := name (Path [s]) in
       Ok (acc ++ [Path [SCRIPTS_DIR;
                         pretty install_script_index +:+ "_"
                         +:+ install_script_name]]))
    (zip (seq 0 (length install_scripts_src)) install_scripts_src) [];
  home ← as_str (home_dir opts);
  work ← as_str (work_dir opts);
  let work_dir := path_str (Path [home; work]) in
  if eq_zero (uid opts) || eq_zero (gid opts) then
    Raise (SystemExit 1 ROOT_MESSAGE)
  else
    volumes ← or_exit is_FileNotFoundError
      (fun ex => "Error resolving mount path: " +:+ exn_str ex)
      (collect_volumes w (mount opts) work_dir (negb (no_recursive_mount opts)));
    Ok {|
      ms_opts := opts;
      ms_packages := packages;
      ms_apt_sources := apt_sources;
      ms_apt_keys_src := fst apt_keys_pair;
      ms_apt_keys := snd apt_keys_pair;
      ms_install_scripts := install_scripts;
      ms_work_dir := work_dir;
      ms_volumes := volumes
    |}.

(** The [docker build] command line [run_docker] assembles. The user
    and group id go through an f-string; [docker] and the image name are
    passed on as they are. *)
Definition docker_build_args (docker uid gid image_name : value)
    (dockerfile_path build_dir : string) (verbose : Z) : option (list value) :=
  uid_s ← scalar_str uid;
  gid_s ← scalar_str gid;
  Some ([ docker; VStr "build";
          VStr "--build-arg"; VStr ("UID=" +:+ uid_s);
          VStr "--build-arg"; VStr ("GID=" +:+ gid_s);
          VStr "--tag"; image_name;
          VStr "--file"; VStr dockerfile_path ]
        ++ (if (verbose <? 1)%Z then [VStr "--quiet"] else [])
        ++ [VStr build_dir]).

(** ** Sample worlds and inputs *)

(** A bare machine: empty environment, no file exists, every relative
    path resolves under [/home/user/proj]. *)
Definition under_cwd (p : string) : string :=
  if String.eqb p "." then "/home/user/proj"
  else if String.prefix "/" p then p
  else "/home/user/proj/" +:+ p.

Definition base_world : World := {|
  w_environ := ∅;
  w_exists := fun _ => false;
  w_ini := fun _ => IniUnreadable;
  w_geteuid := 1000;
  w_getegid := 1000;
  w_cwd := "/home/user/proj";
  w_resolve := fun p => Some (under_cwd p);
  w_is_dir := fun _ => false;
  w_scandir := fun _ => Ok [];
  w_read := fun _ => Ok "";
  w_listdir := fun _ => Ok []
|}.

Definition with_environ (w : World) (env : gmap string string) : World :=
  MkWorld env (w_exists w) (w_ini w) (w_geteuid w) (w_getegid w) (w_cwd w)
    (w_resolve w) (w_is_dir w) (w_scandir w) (w_read w) (w_listdir w).

(** The file system changed so that exactly [path] holds a config file. *)
Definition with_config_file (w : World) (path : string) (f : ini_file) : World :=
  MkWorld (w_environ w)
    (fun p => String.eqb p path || w_exists w p)
    (fun p => if String.eqb p path then f else w_ini w p)
    (w_geteuid w) (w_getegid w) (w_cwd w)
    (w_resolve w) (w_is_dir w) (w_scandir w) (w_read w) (w_listdir w).

Definition with_resolve (w : World) (r : string → option string) : World :=
  MkWorld (w_environ w) (w_exists w) (w_ini w) (w_geteuid w) (w_getegid w)
    (w_cwd w) r (w_is_dir w) (w_scandir w) (w_read w) (w_listdir w).


(** One directory [dir] with the entries [entries]. *)
Definition with_directory (w : World) (dir : string) (entries : list DirEntry)
  : World :=
  MkWorld (w_environ w)
    (fun p => String.eqb p dir || w_exists w p)
    (w_ini w) (w_geteuid w) (w_getegid w) (w_cwd w) (w_resolve w)
    (fun p => String.eqb p dir || w_is_dir w p)
    (fun p => if String.eqb p dir then Ok entries else w_scandir w p)
    (w_read w) (w_listdir w).

(** What [parse_args] returns when the command line is empty: every
    attribute is [None] but the positional [command], an empty list. *)
Definition empty_namespace : gmap string value := {[ "command" := VList [] ]}.

(** A one-section parser. *)
Definition one_section (sec : string) (keys : list (string * option string))
  : ConfigParser :=
  MkConfigParser [(sec, list_to_map keys)] ∅.

(** The environment-backed options and the attribute a command line
    flag for them would set. *)
Definition ENV_OPTIONS : list string :=
  ["DOCKER"; "DOCKER_HOST"; "DOCKER_RUN_FLAGS"].

Definition cli_attr (nm : string) : string := replace "-" "_" (lower nm).

(** An option is absent from the command line and the config file. *)
Definition absent (self : ConfigMerger) (nm : string) : Prop :=
  getattr (cm_args self) (replace "-" "_" nm) = VNone
  ∧ ∀ config sec, cm_config self = Some (config, sec) →
      has_option config sec nm = false.

(** C1 inputs: [DOCKER] set in the environment, and an args object that
    carries a [docker] attribute. *)
Definition world_docker_env : World :=
  with_environ base_world {[ "DOCKER" := "/env/docker" ]}.

Definition merger_docker_cli : ConfigMerger :=
  MkConfigMerger {[ "docker" := VStr "/cli/docker" ]} None VNone.

Definition merger_docker_config : ConfigMerger :=
  MkConfigMerger empty_namespace
    (Some (one_section "proj" [("docker", Some "/cfg/docker")], "proj")) VNone.

(** The config file is chosen before any section is loaded. *)
Definition chosen_config_file (w : World) (args : gmap string value) : value :=
  get_file w (MkConfigMerger args None VNone) "config-file"
    (OnePath DEFAULT_CONFIG_FILE).

(** C3 input: the default config file exists and is not valid ini text
    (its first line comes before any section header). *)
Definition world_malformed_config : World :=
  with_config_file base_world DEFAULT_CONFIG_FILE
    (IniMalformed MissingSectionHeaderError).

(** C4 inputs: of three candidate scripts the first and the last exist. *)
Definition with_existing (w : World) (paths : list string) : World :=
  MkWorld (w_environ w)
    (fun p => bool_decide (p ∈ paths) || w_exists w p)
    (w_ini w) (w_geteuid w) (w_getegid w) (w_cwd w) (w_resolve w)
    (w_is_dir w) (w_scandir w) (w_read w) (w_listdir w).

Definition world_two_scripts : World :=
  with_existing base_world ["a.sh"; "c.sh"].

Definition merger_no_flags : ConfigMerger :=
  MkConfigMerger empty_namespace None VNone.


(** Two parsers answer alike for the key [k] of section [sec]. *)
Definition same_at (cp1 cp2 : ConfigParser) (sec k : string) : Prop :=
  has_option cp1 sec k = has_option cp2 sec k
  ∧ config_get cp1 sec k = config_get cp2 sec k.


(** C8: section [myproj] with [base-image = ubuntu:22.04] and the bare
    key [docker-passthrough]. *)
Definition myproj_config : ConfigParser :=
  one_section "myproj"
    [("base-image", Some "ubuntu:22.04"); ("docker-passthrough", None)].

Definition world_myproj : World :=
  with_config_file base_world DEFAULT_CONFIG_FILE (IniParsed myproj_config).

(** The merger [ConfigMerger.__init__] builds from that file. *)
Definition merger_myproj : ConfigMerger :=
  MkConfigMerger empty_namespace (Some (myproj_config, "myproj"))
    (VStr DEFAULT_CONFIG_FILE).

(** A section name as the parser produces them: not empty, and not the
    name of the defaults section. *)
Definition regular_section (sec : string) : Prop :=
  String.eqb sec "" || String.eqb sec DEFAULTSECT = false.



(** ** Notions used to state the mount properties *)

(** [basename] of a mount argument, as [collect_volumes] takes it. *)
Definition basename (mount_arg_str : string) : string :=
  name (Path [mount_arg_str]).



(** The host paths one mount argument binds: the keys of the mapping
    [collect_volumes] builds for that argument alone. *)
Definition host_keys (w : World) (work_dir : string) (recursive : bool)
    (mount_arg_str : string) : gset string :=
  match collect_volumes w (str_list [mount_arg_str]) work_dir recursive with
  | Ok volumes => dom volumes
  | Raise _ => ∅
  end.

(** No two entries of a list share a key. *)
Inductive separate {A : Type} (keys : A → gset string) : list A → Prop :=
  | separate_nil : separate keys []
  | separate_cons x xs :
      Forall (fun y => keys x ## keys y) xs → separate keys xs →
      separate keys (x :: xs).

(** A loop body that only adds bindings: what it does to a mapping is
    what it does to the empty mapping, laid over the mapping. *)
Definition additive {A : Type}
    (f : gmap string string → A → res (gmap string string)) : Prop :=
  ∀ vol x, f vol x = (d ← f ∅ x; Ok (d ∪ vol)).

(** C5 input: [b] is a symlink to the directory [a], so both resolve to
    the same canonical path. *)
Definition world_alias : World :=
  with_resolve base_world
    (fun p => if String.eqb p "a" || String.eqb p "b" then Some "/data/a"
              else Some (under_cwd p)).

Definition WORK : string := "/home/build/src".

(** C6 inputs: the directory [D] of the working directory holds
    symlinks to the directory [/elsewhere]: one of them in
    [world_one_link], two in [world_two_links]. *)
Definition resolve_links (links : list string) (p : string) : option string :=
  if bool_decide (p ∈ links) then Some "/elsewhere" else Some (under_cwd p).

Definition world_one_link : World :=
  with_resolve
    (with_directory base_world "/home/user/proj/D"
       [MkDirEntry "README" false false; MkDirEntry "L" true true])
    (resolve_links ["/home/user/proj/D/L"]).


(** ** Well-formed paths *)




(** C2 and C9 inputs. In [world_ready] the apt keys directory exists
    (and is empty) and the packages file can be read, so that nothing but
    the step under study stands between [main] and [docker build]. *)
Definition world_ready : World := with_existing base_world [DEFAULT_APT_KEYS].

(** [--mount missing], where nothing called [missing] exists. *)
Definition args_missing_mount : gmap string value :=
  {[ "command" := VList []; "mount" := VList [VStr "missing"] ]}.

(** A config file [[proj]] with the line [uid = 0]. *)
Definition world_uid_zero_config : World :=
  with_config_file world_ready DEFAULT_CONFIG_FILE
    (IniParsed (one_section "proj" [("uid", Some "0")])).

(** What [main] resolved, for statements about its result. *)
Definition volumes_of (r : res MainState) : option (gmap string string) :=
  match r with
  | Ok st => Some (ms_volumes st)
  | Raise _ => None
  end.

Definition uid_of (r : res MainState) : option value :=
  match r with
  | Ok st => Some (uid (ms_opts st))
  | Raise _ => None
  end.

(** The [docker build] command line of a finished [main] prelude, for a
    build directory [build_dir]. *)
Definition build_command (r : res MainState) (build_dir : string)
  : option (list value) :=
  match r with
  | Ok st =>
      let opts := ms_opts st in
      docker_build_args (docker opts) (uid opts) (gid opts) (image_name opts)
        (path_str (Path [build_dir; "Dockerfile"])) build_dir (verbose opts)
  | Raise _ => None
  end.

(** ** Notions used to state further properties *)



(** A world in which no file can be read. *)
Definition world_no_packages : World :=
  MkWorld (w_environ base_world) (w_exists base_world) (w_ini base_world)
    (w_geteuid base_world) (w_getegid base_world) (w_cwd base_world)
    (w_resolve base_world) (w_is_dir base_world) (w_scandir base_world)
    (fun _ => Raise (OSError "Permission denied")) (w_listdir base_world).

(** A string without white space. *)
Fixpoint no_space (s : string) : bool :=
  match s with
  | EmptyString => true
  | String c r => negb (is_space c) && no_space r
  end.

(** A word: not empty, no white space. *)
Definition word (s : string) : Prop := s ≠ "" ∧ no_space s = true.

(** A packages file of two lines, and two [--package] values of which
    the first holds two words. *)
Definition world_packages : World :=
  MkWorld (w_environ base_world) (w_exists base_world) (w_ini base_world)
    (w_geteuid base_world) (w_getegid base_world) (w_cwd base_world)
    (w_resolve base_world) (w_is_dir base_world) (w_scandir base_world)
    (fun _ => Ok (String.append "gcc" (String "010" (String.append "make"
                    (String "010" "")))))
    (w_listdir base_world).

Definition args_two_packages : gmap string value :=
  {[ "command" := VList []; "package" := str_list ["git vim"; "curl"] ]}.

(** * Properties *)

(** ** Option resolution *)

Lemma get_or_else_from_args self nm dflt v :
  getattr (cm_args self) (replace "-" "_" nm) = v → v ≠ VNone →
  get_or_else self nm dflt = v.
Proof.
  intros Hv Hne. unfold get_or_else. rewrite Hv.
  by destruct v.
Qed.

Lemma get_or_else_absent self nm dflt :
  absent self nm →
  get_or_else self nm dflt = match dflt with Some f => f () | None => VNone end.
Proof.
  intros [Hargs Hcfg]. unfold get_or_else. rewrite Hargs. simpl.
  destruct (cm_config self) as [[config sec]|] eqn:E; [|done].
  by rewrite (Hcfg config sec eq_refl).
Qed.

(** C1, the sentence as written fails: with [DOCKER] set in the
    environment and an args object carrying a [docker] attribute,
    [get_env] returns the environment's value, not the attribute. *)
Lemma cli_value_loses_to_environment :
  getattr (cm_args merger_docker_cli) (cli_attr "DOCKER") = VStr "/cli/docker"
  ∧ w_environ world_docker_env !! "DOCKER" = Some "/env/docker"
  ∧ get_env world_docker_env merger_docker_cli "DOCKER" (VStr DEFAULT_DOCKER)
    = VStr "/env/docker".
Proof. by vm_compute. Qed.

(** C1 (amended): for each of the three environment-backed options, a
    variable set in the environment is the resolved value, whatever the
    args object and the config file's active section hold; and the
    argument parser declares no attribute for any of the three, so no
    command line value competes with it. *)
Theorem environment_value_wins w config opts :
  Options_init w config = Ok opts →
  (∀ env, w_environ w !! "DOCKER" = Some env → docker opts = VStr env)
  ∧ (∀ env, w_environ w !! "DOCKER_HOST" = Some env →
       docker_host opts = VStr env)
  ∧ (∀ env, w_environ w !! "DOCKER_RUN_FLAGS" = Some env →
       docker_run_flags opts = VStr env)
  ∧ Forall (fun nm => cli_attr nm ∉ arg_dests) ENV_OPTIONS.
Proof.
  unfold Options_init. intros H.
  destruct (py_int _) as [n|] eqn:E; simpl in H; [|done].
  injection H as <-. simpl.
  split_and!; try (intros env Henv; unfold get_env; by rewrite Henv).
  repeat constructor; vm_compute; intros Hin;
    repeat (apply elem_of_cons in Hin as [Hin|Hin]; [done|]);
    by apply elem_of_nil in Hin.
Qed.

Lemma environment_value_wins_witness :
  ∃ opts, Options_init world_docker_env merger_docker_config = Ok opts
          ∧ w_environ world_docker_env !! "DOCKER" = Some "/env/docker"
          ∧ docker opts = VStr "/env/docker".
Proof.
  eexists. split; [by vm_compute|]. split; [by vm_compute|].
  eapply (environment_value_wins world_docker_env merger_docker_config);
    by vm_compute.
Defined.

(** C3, the sentence as written fails: a default config file with a
    line before its first section header makes [ConfigMerger.__init__]
    raise, and [main] with it. *)
Lemma malformed_config_crashes :
  chosen_config_file world_malformed_config empty_namespace
    = VStr DEFAULT_CONFIG_FILE
  ∧ w_ini world_malformed_config DEFAULT_CONFIG_FILE
    = IniMalformed MissingSectionHeaderError
  ∧ ConfigMerger_init world_malformed_config empty_namespace
    = Raise (ConfigParserError MissingSectionHeaderError)
  ∧ main world_malformed_config empty_namespace
    = Raise (ConfigParserError MissingSectionHeaderError).
Proof. by vm_compute. Qed.

(** C3 (amended): a config file that is not valid ini text makes option
    resolution raise the parser's error, which [main] does not catch;
    a config file that cannot be opened, or that holds no section, is
    the case treated as "no usable section": resolution succeeds and
    every option is the args attribute or else the default. *)
Theorem config_file_outcomes w args path :
  chosen_config_file w args = VStr path →
  (∀ e, w_ini w path = IniMalformed e →
     ConfigMerger_init w args = Raise (ConfigParserError e)
     ∧ main w args = Raise (ConfigParserError e))
  ∧ (w_ini w path = IniUnreadable
     ∨ (∃ cp, w_ini w path = IniParsed cp ∧ sections cp = []) →
     ∃ self, ConfigMerger_init w args = Ok self
       ∧ cm_config self = None
       ∧ ∀ nm dflt, get_or_else self nm dflt =
           match getattr args (replace "-" "_" nm), dflt with
           | VNone, Some f => f ()
           | VNone, None => VNone
           | arg, _ => arg
           end).
Proof.
  unfold chosen_config_file. intros Hfile.
  assert (Hinit : ConfigMerger_init w args =
            config ← config_read w path;
            match sections config with
            | [] => Ok (MkConfigMerger args None (VStr path))
            | first :: _ =>
                Ok (MkConfigMerger args (Some (config, first)) (VStr path))
            end).
  { unfold ConfigMerger_init. by rewrite Hfile. }
  split.
  - intros e He.
    assert (ConfigMerger_init w args = Raise (ConfigParserError e)) as Hraise.
    { rewrite Hinit. unfold config_read. by rewrite He. }
    split; [done|]. unfold main. by rewrite Hraise.
  - intros Hnone.
    exists (MkConfigMerger args None (VStr path)). split_and!.
    + rewrite Hinit. unfold config_read.
      destruct Hnone as [->|(cp & -> & Hs)]; [done|]. simpl. by rewrite Hs.
    + done.
    + intros nm dflt. unfold get_or_else. simpl.
      by destruct (getattr args _), dflt.
Qed.

Lemma config_file_outcomes_witness :
  chosen_config_file world_malformed_config empty_namespace
    = VStr DEFAULT_CONFIG_FILE
  ∧ main world_malformed_config empty_namespace
    = Raise (ConfigParserError MissingSectionHeaderError).
Proof.
  split; [by vm_compute|].
  apply (config_file_outcomes world_malformed_config empty_namespace
           DEFAULT_CONFIG_FILE); by vm_compute.
Defined.

(** C4, the sentence as written fails: when no candidate exists the
    result is [None], not an empty list. *)
Lemma no_candidate_gives_None :
  absent merger_no_flags "install-script"
  ∧ truthy (get merger_no_flags "no-install-script" VNone) = false
  ∧ List.filter (w_exists base_world) [DEFAULT_INSTALL_SCRIPT] = []
  ∧ get_file base_world merger_no_flags "install-script"
      (Candidates [DEFAULT_INSTALL_SCRIPT]) = VNone
  ∧ get_file base_world merger_no_flags "install-script"
      (Candidates [DEFAULT_INSTALL_SCRIPT]) ≠ VList [].
Proof.
  repeat split; by vm_compute.
Qed.

(** C4 (amended): with no command line or config file value for the
    option and the negation flag not set, a file-default list option
    resolves to the candidates that exist, in their original order; when
    none exists it resolves to [None]. *)
Theorem get_file_existing_candidates w self nm ps :
  absent self nm →
  truthy (get self ("no-" +:+ nm) VNone) = false →
  get_file w self nm (Candidates ps) =
    match List.filter (w_exists w) ps with
    | [] => VNone
    | present => VList (VStr <$> present)
    end.
Proof.
  intros Habs Hno. unfold get_file, get.
  rewrite (get_or_else_absent _ _ _ Habs). simpl.
  unfold get in Hno. rewrite Hno.
  by destruct (List.filter _ ps).
Qed.

Lemma get_file_existing_candidates_witness :
  absent merger_no_flags "install-script"
  ∧ truthy (get merger_no_flags "no-install-script" VNone) = false
  ∧ get_file world_two_scripts merger_no_flags "install-script"
      (Candidates ["a.sh"; "b.sh"; "c.sh"]) = VList [VStr "a.sh"; VStr "c.sh"].
Proof.
  assert (Habs : absent merger_no_flags "install-script").
  { split; [by vm_compute|]. by intros ???. }
  split_and!; [done|by vm_compute|].
  rewrite (get_file_existing_candidates world_two_scripts merger_no_flags
             "install-script" ["a.sh"; "b.sh"; "c.sh"] Habs); by vm_compute.
Defined.

(** ** Which config keys are read *)

Section same_keys.
Context (w : World) (args : gmap string value) (sec : string) (cf : value).
Context (cp1 cp2 : ConfigParser).

Let m1 := MkConfigMerger args (Some (cp1, sec)) cf.
Let m2 := MkConfigMerger args (Some (cp2, sec)) cf.

Lemma get_or_else_same nm dflt :
  same_at cp1 cp2 sec nm → get_or_else m1 nm dflt = get_or_else m2 nm dflt.
Proof. intros [Hhas Hget]. unfold get_or_else. simpl. by rewrite Hhas, Hget. Qed.

Lemma get_same nm dflt :
  same_at cp1 cp2 sec nm → get m1 nm dflt = get m2 nm dflt.
Proof. apply get_or_else_same. Qed.

Lemma get_flag_same nm :
  same_at cp1 cp2 sec nm → get_flag m1 nm = get_flag m2 nm.
Proof. intros H. unfold get_flag. by rewrite (get_same _ _ H). Qed.

Lemma get_list_same nm :
  same_at cp1 cp2 sec nm → get_list m1 nm = get_list m2 nm.
Proof. intros H. unfold get_list. by rewrite (get_same _ _ H). Qed.

Lemma get_env_same nm dflt :
  same_at cp1 cp2 sec (lower nm) → get_env w m1 nm dflt = get_env w m2 nm dflt.
Proof. intros H. unfold get_env. by rewrite (get_same _ _ H). Qed.

Lemma get_file_same nm dflt :
  same_at cp1 cp2 sec nm → same_at cp1 cp2 sec ("no-" +:+ nm) →
  get_file w m1 nm dflt = get_file w m2 nm dflt.
Proof.
  intros H Hno. unfold get_file.
  by rewrite (get_same _ _ H), (get_same _ _ Hno).
Qed.
End same_keys.

Lemma lower_char_idemp c : lower_char (lower_char c) = lower_char c.
Proof. by destruct c as [[] [] [] [] [] [] [] []]. Qed.

Lemma lower_idemp s : lower (lower s) = lower s.
Proof. induction s as [|c s IH]; simpl; [done|]. by rewrite lower_char_idemp, IH. Qed.





(** ** Bare keys *)

(** C8: a key of the active section written without a value, for an
    option with no args attribute, resolves to [True]: through
    [get_or_else] and [get] whatever the default, as a flag through
    [get_flag], through [get_file], and through [get_env] when the
    option's environment variable is not set. *)
Theorem bare_key_resolves_true self config sec sect nm :
  cm_config self = Some (config, sec) →
  regular_section sec →
  assoc sec (cp_sections config) = Some sect →
  sect !! optionxform nm = Some None →
  getattr (cm_args self) (replace "-" "_" nm) = VNone →
  (∀ dflt, get_or_else self nm dflt = VBool true)
  ∧ (∀ dflt, get self nm dflt = VBool true)
  ∧ get_flag self nm = true
  ∧ (∀ w dflt, get_file w self nm dflt = VBool true)
  ∧ (∀ w NM dflt, lower NM = nm → w_environ w !! NM = None →
       get_env w self NM dflt = VBool true).
Proof.
  intros Hcfg Hsec Hsect Hkey Hargs.
  assert (Hgoe : ∀ dflt, get_or_else self nm dflt = VBool true).
  { intros dflt. unfold get_or_else. rewrite Hargs, Hcfg. simpl.
    unfold has_option, config_get. rewrite Hsec, Hsect. simpl.
    by rewrite Hkey. }
  split_and!; [done|by intros; apply Hgoe|..].
  - unfold get_flag, get. by rewrite Hgoe.
  - intros w dflt. unfold get_file, get. by rewrite Hgoe.
  - intros w NM dflt <- Henv. unfold get_env, get. rewrite Henv. apply Hgoe.
Qed.

(** The scenario of C8: section [myproj] with [base-image = ubuntu:22.04]
    and the bare key [docker-passthrough], an empty command line. *)
Lemma bare_key_resolves_true_witness :
  ConfigMerger_init world_myproj empty_namespace = Ok merger_myproj
  ∧ get_flag merger_myproj "docker-passthrough" = true
  ∧ ∃ opts, Options_init world_myproj merger_myproj = Ok opts
      ∧ base_image opts = VStr "ubuntu:22.04"
      ∧ docker_passthrough opts = true.
Proof.
  split; [by vm_compute|]. split.
  - eapply (bare_key_resolves_true merger_myproj myproj_config "myproj"
              (list_to_map [("base-image", Some "ubuntu:22.04");
                            ("docker-passthrough", None)])
              "docker-passthrough"); by vm_compute.
  - eexists. by vm_compute.
Defined.

(** ** Mount resolution *)

Lemma for_each_app {A S : Type} (f : S → A → res S) xs ys s :
  for_each f (xs ++ ys) s = (s' ← for_each f xs s; for_each f ys s').
Proof.
  revert s. induction xs as [|x xs IH]; intros s; simpl; [done|].
  destruct (f s x) as [s'|e]; simpl; [apply IH|done].
Qed.

Lemma for_each_additive {A : Type}
    (f : gmap string string → A → res (gmap string string)) :
  additive f → additive (fun vol xs => for_each f xs vol).
Proof.
  intros Hf vol xs. revert vol.
  induction xs as [|x xs IH]; intros vol; simpl.
  - by rewrite (left_id_L ∅ (∪)).
  - rewrite (Hf vol x). destruct (f ∅ x) as [d|e]; simpl; [|done].
    rewrite (IH (d ∪ vol)), (IH d).
    destruct (for_each f xs ∅) as [d'|e]; simpl; [|done].
    by rewrite (assoc_L (∪)).
Qed.

Lemma visit_subdir_additive w mount_src mount_dst :
  additive (visit_subdir w mount_src mount_dst).
Proof.
  intros vol subdir. unfold visit_subdir.
  destruct (de_is_symlink subdir && de_is_dir subdir); simpl.
  - destruct (resolve w _) as [src|e]; simpl; [|done].
    by rewrite insert_union_singleton_l, insert_empty.
  - by rewrite (left_id_L ∅ (∪)).
Qed.

Lemma visit_path_additive w work_dir recursive :
  additive (visit_path w work_dir recursive).
Proof.
  intros vol s. unfold visit_path.
  destruct (resolve w _) as [src|e]; simpl; [|done].
  set (dst := Path [work_dir; name (Path [s])]).
  destruct (recursive && w_is_dir w src); simpl.
  - destruct (w_scandir w src) as [subdirs|e]; simpl; [|done].
    pose proof (for_each_additive _ (visit_subdir_additive w src dst)) as Hadd.
    rewrite (Hadd (<[src:=path_str dst]> vol) subdirs).
    rewrite (Hadd (<[src:=path_str dst]> ∅) subdirs).
    destruct (for_each _ subdirs ∅) as [d|e]; simpl; [|done].
    by rewrite insert_empty, <-(assoc_L (∪)), <-insert_union_singleton_l.
  - by rewrite insert_empty, <-insert_union_singleton_l.
Qed.

Lemma collect_volumes_str_list w l work_dir recursive :
  collect_volumes w (str_list l) work_dir recursive
  = for_each (visit_path w work_dir recursive) l ∅.
Proof.
  unfold collect_volumes, str_list. simpl. generalize (∅ : gmap string string).
  induction l as [|s l IH]; intros vol; simpl; [done|].
  change (visit_mount w work_dir recursive vol (VStr s))
    with (visit_path w work_dir recursive vol s).
  destruct (visit_path w work_dir recursive vol s); simpl; [apply IH|done].
Qed.

Lemma host_keys_visit_path w work_dir recursive s :
  host_keys w work_dir recursive s
  = match visit_path w work_dir recursive ∅ s with
    | Ok d => dom d
    | Raise _ => ∅
    end.
Proof.
  unfold host_keys. rewrite collect_volumes_str_list. simpl.
  by destruct (visit_path w work_dir recursive ∅ s).
Qed.

Lemma separate_perm {A : Type} (keys : A → gset string) xs ys :
  xs ≡ₚ ys → separate keys xs → separate keys ys.
Proof.
  induction 1 as [|x xs ys Hp IH|x y xs|xs ys zs _ IH1 _ IH2]; intros Hs.
  - done.
  - inversion Hs as [|? ? Hx Hxs]; subst. constructor; [|by apply IH].
    by rewrite <-Hp.
  - inversion Hs as [|? ? Hy Hxs]; subst.
    inversion Hxs as [|? ? Hx Hl]; subst.
    inversion Hy as [|? ? Hyx Hyl]; subst.
    constructor; [|by constructor]. by constructor.
  - auto.
Qed.

(** Swapping two loop steps whose bindings have different keys. *)
Lemma for_each_perm {A : Type}
    (f : gmap string string → A → res (gmap string string)) xs ys :
  additive f →
  xs ≡ₚ ys →
  separate (fun x => match f ∅ x with Ok d => dom d | Raise _ => ∅ end) xs →
  ∀ vol m, for_each f xs vol = Ok m → for_each f ys vol = Ok m.
Proof.
  intros Hf Hp. induction Hp as [|x xs ys Hp IH|x y xs|xs ys zs Hp1 IH1 Hp2 IH2];
    intros Hs vol m; simpl.
  - done.
  - inversion Hs; subst.
    destruct (f vol x) as [vol'|e]; simpl; [by apply IH|done].
  - inversion Hs as [|? ? Hy Hxs]; subst.
    inversion Hy as [|? ? Hyx _]; subst.
    rewrite (Hf vol y), (Hf vol x).
    destruct (f ∅ y) as [dy|e] eqn:Ey; simpl; [|done].
    rewrite (Hf (dy ∪ vol) x).
    destruct (f ∅ x) as [dx|e] eqn:Ex; simpl; [|done].
    rewrite (Hf (dx ∪ vol) y), Ey. simpl.
    assert (dx ∪ (dy ∪ vol) = dy ∪ (dx ∪ vol)) as ->; [|done].
    rewrite !(assoc_L (∪)). f_equal. apply map_union_comm.
    by apply map_disjoint_dom.
  - intros H. apply IH2; [by eapply separate_perm|]. by apply IH1.
Qed.

(** C5, the sentence as written fails: [a] and [b] have different
    basenames, yet both resolve to [/data/a], and the entry that comes
    last decides where [/data/a] is mounted. *)
Lemma reordering_changes_mapping :
  ["a"; "b"] ≡ₚ ["b"; "a"]
  ∧ NoDup (basename <$> ["a"; "b"])
  ∧ collect_volumes world_alias (str_list ["a"; "b"]) WORK true
    = Ok {[ "/data/a" := "/home/build/src/b" ]}
  ∧ collect_volumes world_alias (str_list ["b"; "a"]) WORK true
    = Ok {[ "/data/a" := "/home/build/src/a" ]}.
Proof.
  split; [apply perm_swap|]. split; [|by vm_compute].
  apply (bool_decide_unpack _). by vm_compute.
Qed.

(** C5 (amended): for two orderings of the same mount list in which no
    two entries share a basename and no two entries bind the same host
    path (neither through their own canonical path nor through a
    symlinked child), mount resolution gives the same mapping. *)
Theorem reordered_mounts_same_mapping w l l' work_dir recursive m :
  l ≡ₚ l' →
  NoDup (basename <$> l) →
  separate (host_keys w work_dir recursive) l →
  collect_volumes w (str_list l) work_dir recursive = Ok m →
  collect_volumes w (str_list l') work_dir recursive = Ok m.
Proof.
  intros Hp _ Hs. rewrite !collect_volumes_str_list.
  apply for_each_perm; [apply visit_path_additive|done|].
  clear -Hs. induction Hs as [|x xs Hx _ IH]; constructor; [|done].
  eapply Forall_impl; [exact Hx|]. intros y.
  by rewrite !host_keys_visit_path.
Qed.

Lemma reordered_mounts_same_mapping_witness :
  collect_volumes base_world (str_list ["b"; "a"]) WORK true
  = Ok {[ "/home/user/proj/a" := "/home/build/src/a";
          "/home/user/proj/b" := "/home/build/src/b" ]}.
Proof.
  apply (reordered_mounts_same_mapping base_world ["a"; "b"] ["b"; "a"]).
  - apply perm_swap.
  - apply (bool_decide_unpack _). by vm_compute.
  - repeat constructor. apply (bool_decide_unpack _). by vm_compute.
  - by vm_compute.
Defined.

(** ** Symlinked children *)










(** ** Paths print and parse back *)
















(** ** The default mount *)





(** ** Missing mount sources *)

Lemma visit_path_flat w work_dir vol s H :
  w_resolve w (path_str (Path [s])) = Some H →
  visit_path w work_dir false vol s
  = Ok (<[H := path_str (Path [work_dir; name (Path [s])])]> vol).
Proof. intros HH. unfold visit_path, resolve. by rewrite HH. Qed.

(** Without recursion every mount argument that resolves is bound,
    whether or not anything exists there: [collect_volumes] never asks. *)
Lemma collect_volumes_binds_every_argument w l work_dir :
  (∀ s, s ∈ l → is_Some (w_resolve w (path_str (Path [s])))) →
  ∃ m, collect_volumes w (str_list l) work_dir false = Ok m
    ∧ ∀ s H, s ∈ l → w_resolve w (path_str (Path [s])) = Some H → H ∈ dom m.
Proof.
  rewrite collect_volumes_str_list.
  assert (Hgen : ∀ vol,
    (∀ s, s ∈ l → is_Some (w_resolve w (path_str (Path [s])))) →
    ∃ m, for_each (visit_path w work_dir false) l vol = Ok m
      ∧ dom vol ⊆ dom m
      ∧ ∀ s H, s ∈ l → w_resolve w (path_str (Path [s])) = Some H →
          H ∈ dom m).
  { induction l as [|s l IH]; intros vol Hres; cbn [for_each].
    - exists vol. split_and!; [done|done|]. intros s H Hin.
      by apply elem_of_nil in Hin.
    - destruct (Hres s) as [H HH]; [left|].
      rewrite (visit_path_flat _ _ _ _ _ HH). simpl.
      destruct (IH (<[H:=path_str (Path [work_dir; name (Path [s])])]> vol))
        as (m & Hm & Hsub & Hkeys).
      { intros s' Hin. apply Hres. by right. }
      exists m. split; [done|]. rewrite dom_insert_L in Hsub. split.
      + set_solver.
      + intros s' H' [->|Hin]%elem_of_cons Hs'.
        * rewrite HH in Hs'. injection Hs' as <-. set_solver.
        * by eapply Hkeys. }
  intros Hres. destruct (Hgen ∅ Hres) as (m & Hm & _ & Hkeys). eauto.
Qed.

(** C2, the code at the failing input: [--mount missing] where no such
    path exists. Nothing is raised: the missing path is bound like any
    other, and [main] goes on with that mapping. *)
Lemma missing_mount_is_mapped :
  w_exists world_ready "missing" = false
  ∧ w_exists world_ready "/home/user/proj/missing" = false
  ∧ collect_volumes world_ready (str_list ["missing"]) WORK true
    = Ok {[ "/home/user/proj/missing" := "/home/build/src/missing" ]}
  ∧ volumes_of (main world_ready args_missing_mount)
    = Some {[ "/home/user/proj/missing" := "/home/build/src/missing" ]}.
Proof. by vm_compute. Qed.

(** ** Root ids *)

Lemma bind_Ok {A B : Type} (m : res A) (f : A → res B) b :
  m ≫= f = Ok b → ∃ a, m = Ok a ∧ f a = Ok b.
Proof. destruct m as [a|e]; simpl; [eauto|done]. Qed.

(** When [main] gets past its check, neither id compares equal to [0]. *)
Lemma main_passes_only_nonzero_ids w args st :
  main w args = Ok st →
  eq_zero (uid (ms_opts st)) = false ∧ eq_zero (gid (ms_opts st)) = false.
Proof.
  unfold main. intros Hmain.
  repeat (apply bind_Ok in Hmain as (? & _ & Hmain)).
  destruct (eq_zero (uid _) || eq_zero (gid _)) eqn:Hz; [done|].
  apply bind_Ok in Hmain as (? & _ & Hmain). injection Hmain as <-.
  simpl. by apply orb_false_iff in Hz.
Qed.

(** C9, the code at the failing input: the config file says [uid = 0].
    The resolved uid is the string ["0"], which does not compare equal to
    the integer [0]; [main] passes its check and the [docker build]
    command line it goes on to assemble carries [UID=0]. *)
Lemma config_uid_zero_passes_check :
  uid_of (main world_uid_zero_config empty_namespace) = Some (VStr "0")
  ∧ eq_zero (VStr "0") = false
  ∧ build_command (main world_uid_zero_config empty_namespace) "/tmp/build"
    = Some [ VStr "docker"; VStr "build";
             VStr "--build-arg"; VStr "UID=0";
             VStr "--build-arg"; VStr "GID=1000";
             VStr "--tag"; VStr "proj-builder";
             VStr "--file"; VStr "/tmp/build/Dockerfile";
             VStr "--quiet"; VStr "/tmp/build" ].
Proof. by vm_compute. Qed.

(** * Further properties of the code *)

(** ** Mount lists compose *)

(** X1: resolving a mount list that is the concatenation of two lists
    gives the mapping of the second list laid over the mapping of the
    first (later entries win); in particular repeating a list changes
    nothing. *)
Theorem collect_volumes_app w l1 l2 work_dir recursive m1 m2 :
  collect_volumes w (str_list l1) work_dir recursive = Ok m1 →
  collect_volumes w (str_list l2) work_dir recursive = Ok m2 →
  collect_volumes w (str_list (l1 ++ l2)) work_dir recursive = Ok (m2 ∪ m1)
  ∧ collect_volumes w (str_list (l1 ++ l1)) work_dir recursive = Ok m1.
Proof.
  rewrite !collect_volumes_str_list. intros H1 H2.
  pose proof (for_each_additive _ (visit_path_additive w work_dir recursive))
    as Hadd.
  split.
  - rewrite for_each_app, H1. simpl. rewrite (Hadd m1 l2), H2. done.
  - rewrite for_each_app, H1. simpl. rewrite (Hadd m1 l1), H1. simpl.
    by rewrite (idemp_L (∪)).
Qed.

Lemma collect_volumes_app_witness :
  collect_volumes world_one_link (str_list (["lib"] ++ ["D"])) WORK true
  = Ok ({[ "/home/user/proj/D" := "/home/build/src/D";
           "/elsewhere" := "/home/build/src/D/L" ]}
        ∪ {[ "/home/user/proj/lib" := "/home/build/src/lib" ]}).
Proof.
  apply (collect_volumes_app world_one_link ["lib"] ["D"] WORK true);
    by vm_compute.
Defined.

(** ** Mount resolution without expansion *)

Lemma visit_path_flat_inv w work_dir vol s m :
  visit_path w work_dir false vol s = Ok m →
  ∃ H, w_resolve w (path_str (Path [s])) = Some H
       ∧ m = <[H := path_str (Path [work_dir; basename s])]> vol.
Proof.
  unfold visit_path, resolve, basename.
  destruct (w_resolve w (path_str (Path [s]))) as [H|]; simpl; [|done].
  intros [= <-]. eauto.
Qed.

(** X2: with expansion switched off the mapping holds the canonical
    paths of the mount arguments and nothing else, each bound to
    workDir/basename of an argument that resolves to it, whatever the
    mounted directories contain. *)
Theorem flat_mounts_bind_exactly_arguments w l work_dir m :
  collect_volumes w (str_list l) work_dir false = Ok m →
  (∀ s, s ∈ l →
     ∃ H, w_resolve w (path_str (Path [s])) = Some H ∧ H ∈ dom m)
  ∧ (∀ H v, m !! H = Some v →
       ∃ s, s ∈ l ∧ w_resolve w (path_str (Path [s])) = Some H
            ∧ v = path_str (Path [work_dir; basename s])).
Proof.
  rewrite collect_volumes_str_list.
  assert (Hgen : ∀ vol,
    for_each (visit_path w work_dir false) l vol = Ok m →
    dom vol ⊆ dom m
    ∧ (∀ s, s ∈ l →
         ∃ H, w_resolve w (path_str (Path [s])) = Some H ∧ H ∈ dom m)
    ∧ (∀ H v, m !! H = Some v →
         vol !! H = Some v
         ∨ ∃ s, s ∈ l ∧ w_resolve w (path_str (Path [s])) = Some H
                ∧ v = path_str (Path [work_dir; basename s]))).
  { induction l as [|s l IH]; intros vol Hm; cbn [for_each] in Hm.
    - injection Hm as <-. split_and!; [done| |by left].
      intros s Hin. by apply elem_of_nil in Hin.
    - apply bind_Ok in Hm as (vol' & Hs & Hm).
      apply visit_path_flat_inv in Hs as (H & HH & ->).
      destruct (IH _ Hm) as (Hsub & Hkeys & Hvals).
      rewrite dom_insert_L in Hsub. split_and!.
      + intros x Hx. apply Hsub, elem_of_union. by right.
      + intros s' [->|Hin]%elem_of_cons; [|by apply Hkeys].
        exists H. split; [done|]. apply Hsub, elem_of_union. left.
        by apply elem_of_singleton.
      + intros H' v Hv. destruct (Hvals H' v Hv) as [Hold|(s' & Hin & ? & ?)].
        * destruct (decide (H = H')) as [<-|Hne].
          -- rewrite lookup_insert_eq in Hold. injection Hold as <-.
             right. exists s. split; [left|done].
          -- rewrite lookup_insert_ne in Hold by done. by left.
        * right. exists s'. split; [by right|done]. }
  intros Hm. destruct (Hgen ∅ Hm) as (_ & Hkeys & Hvals).
  split; [done|]. intros H v Hv.
  destruct (Hvals H v Hv) as [Hempty|?]; [|done].
  by rewrite lookup_empty in Hempty.
Qed.

Lemma flat_mounts_bind_exactly_arguments_witness :
  collect_volumes world_one_link (str_list ["D"; "lib"]) WORK false
  = Ok {[ "/home/user/proj/D" := "/home/build/src/D";
          "/home/user/proj/lib" := "/home/build/src/lib" ]}
  ∧ ∃ s, s ∈ ["D"; "lib"]
       ∧ w_resolve world_one_link (path_str (Path [s]))
         = Some "/home/user/proj/D"
       ∧ "/home/build/src/D" = path_str (Path [WORK; basename s]).
Proof.
  assert (Hm : collect_volumes world_one_link (str_list ["D"; "lib"]) WORK false
               = Ok {[ "/home/user/proj/D" := "/home/build/src/D";
                       "/home/user/proj/lib" := "/home/build/src/lib" ]})
    by (by vm_compute).
  split; [done|].
  apply (proj2 (flat_mounts_bind_exactly_arguments _ _ _ _ Hm)).
  by vm_compute.
Defined.



(** ** Every target lies under the working directory *)








(** ** Only the first section of the config file counts *)

Lemma Options_init_same w args sec cf cp1 cp2 :
  (∀ k, same_at cp1 cp2 sec k) →
  Options_init w (MkConfigMerger args (Some (cp1, sec)) cf)
  = Options_init w (MkConfigMerger args (Some (cp2, sec)) cf).
Proof.
  intros H. unfold Options_init.
  rewrite !(get_file_same w args sec cf cp1 cp2) by apply H.
  rewrite !(get_env_same w args sec cf cp1 cp2) by apply H.
  rewrite !(get_flag_same args sec cf cp1 cp2) by apply H.
  rewrite !(get_list_same args sec cf cp1 cp2) by apply H.
  rewrite !(get_same args sec cf cp1 cp2) by apply H.
  rewrite !(get_or_else_same args sec cf cp1 cp2) by apply H.
  done.
Qed.

(** X5: when the chosen config file parses to at least one section, the
    merger's active section is the first one, and the resolved options
    are those of the file cut down to that section (and its defaults):
    what any later section holds has no influence. *)
Theorem first_section_only w args path sec sect rest defaults :
  chosen_config_file w args = VStr path →
  w_ini w path = IniParsed (MkConfigParser ((sec, sect) :: rest) defaults) →
  ∃ self, ConfigMerger_init w args = Ok self
    ∧ cm_config self
      = Some (MkConfigParser ((sec, sect) :: rest) defaults, sec)
    ∧ Options_init w self
      = Options_init w
          (MkConfigMerger args
             (Some (MkConfigParser [(sec, sect)] defaults, sec)) (VStr path)).
Proof.
  unfold chosen_config_file. intros Hfile Hini.
  exists (MkConfigMerger args
            (Some (MkConfigParser ((sec, sect) :: rest) defaults, sec))
            (VStr path)).
  split_and!; [|done|].
  - unfold ConfigMerger_init. rewrite Hfile. simpl.
    unfold config_read. by rewrite Hini.
  - apply Options_init_same. intros k. unfold same_at, has_option, config_get.
    simpl. by rewrite String.eqb_refl.
Qed.

Lemma first_section_only_witness :
  ∃ self,
    ConfigMerger_init
      (with_config_file base_world DEFAULT_CONFIG_FILE
         (IniParsed (MkConfigParser
            [("first", {[ "shell" := Some "/bin/sh" ]});
             ("second", {[ "shell" := Some "/bin/zsh";
                           "username" := Some "dev" ]})] ∅)))
      empty_namespace = Ok self
    ∧ Options_init
        (with_config_file base_world DEFAULT_CONFIG_FILE
           (IniParsed (MkConfigParser
              [("first", {[ "shell" := Some "/bin/sh" ]});
               ("second", {[ "shell" := Some "/bin/zsh";
                             "username" := Some "dev" ]})] ∅))) self
      = Options_init
          (with_config_file base_world DEFAULT_CONFIG_FILE
             (IniParsed (MkConfigParser
                [("first", {[ "shell" := Some "/bin/sh" ]});
                 ("second", {[ "shell" := Some "/bin/zsh";
                               "username" := Some "dev" ]})] ∅)))
          (MkConfigMerger empty_namespace
             (Some (MkConfigParser [("first", {[ "shell" := Some "/bin/sh" ]})]
                      ∅, "first")) (VStr DEFAULT_CONFIG_FILE)).
Proof.
  destruct (first_section_only
              (with_config_file base_world DEFAULT_CONFIG_FILE
                 (IniParsed (MkConfigParser
                    [("first", {[ "shell" := Some "/bin/sh" ]});
                     ("second", {[ "shell" := Some "/bin/zsh";
                                   "username" := Some "dev" ]})] ∅)))
              empty_namespace DEFAULT_CONFIG_FILE "first"
              {[ "shell" := Some "/bin/sh" ]}
              [("second", {[ "shell" := Some "/bin/zsh";
                             "username" := Some "dev" ]})] ∅)
    as (self & Hinit & _ & Hopts); [by vm_compute|by vm_compute|].
  exists self. by split.
Defined.

(** ** What [main] has established when it gets to the build *)

Lemma or_exit_Ok {A : Type} caught msg (body : res A) a :
  or_exit caught msg body = Ok a → body = Ok a.
Proof. destruct body as [a'|e]; simpl; [done|]. by destruct (caught e). Qed.

Lemma as_str_Ok v s : as_str v = Ok s → v = VStr s.
Proof. destruct v; simpl; try done. by intros [= ->]. Qed.

(** The steps a successful run of [main] went through. *)
Lemma main_Ok_inv w args st :
  main w args = Ok st →
  ∃ config pk0 home work,
    ConfigMerger_init w args = Ok config
    ∧ Options_init w config = Ok (ms_opts st)
    ∧ read_packages w (packages_file (ms_opts st)) = Ok pk0
    ∧ for_each
        (fun acc package_arg => s ← as_str package_arg; Ok (acc ++ tokens s))
        (package (ms_opts st)) pk0 = Ok (ms_packages st)
    ∧ home_dir (ms_opts st) = VStr home
    ∧ work_dir (ms_opts st) = VStr work
    ∧ ms_work_dir st = path_str (Path [home; work])
    ∧ collect_volumes w (mount (ms_opts st)) (ms_work_dir st)
        (negb (no_recursive_mount (ms_opts st))) = Ok (ms_volumes st).
Proof.
  unfold main. intros Hmain.
  apply bind_Ok in Hmain as (config & Hconfig & Hmain).
  apply bind_Ok in Hmain as (opts & Hopts & Hmain).
  apply bind_Ok in Hmain as (pk0 & Hpk0 & Hmain).
  apply bind_Ok in Hmain as (pk & Hpk & Hmain).
  apply bind_Ok in Hmain as (aptsrc & _ & Hmain).
  apply bind_Ok in Hmain as (aptkeys & _ & Hmain).
  apply bind_Ok in Hmain as (iss & _ & Hmain).
  apply bind_Ok in Hmain as (scripts & _ & Hmain).
  apply bind_Ok in Hmain as (home & Hhome & Hmain).
  apply bind_Ok in Hmain as (work & Hwork & Hmain).
  destruct (eq_zero (uid opts) || eq_zero (gid opts)); [done|].
  apply bind_Ok in Hmain as (volumes & Hvol & Hmain). injection Hmain as <-.
  exists config, pk0, home, work. simpl.
  split_and!; try done.
  - by apply or_exit_Ok in Hpk0.
  - by apply as_str_Ok.
  - by apply as_str_Ok.
  - by apply or_exit_Ok in Hvol.
Qed.

(** X6: when the packages file cannot be opened or read because of an
    [OSError], [main] prints a message naming the file and exits with
    status 1; any other exception of the read is not caught. *)
Theorem unreadable_packages_file_exits w args config opts p e :
  ConfigMerger_init w args = Ok config →
  Options_init w config = Ok opts →
  packages_file opts = VStr p →
  w_read w (ByPath p) = Raise e →
  main w args =
    Raise (if is_OSError e
           then SystemExit 1 ("Error opening packages file '" +:+ p +:+ "': "
                              +:+ exn_str e)
           else e).
Proof.
  intros Hconfig Hopts Hp Hread. unfold main.
  rewrite Hconfig. simpl. rewrite Hopts. simpl.
  unfold read_packages. rewrite Hp. simpl. rewrite Hread. simpl.
  by destruct (is_OSError e).
Qed.

Lemma unreadable_packages_file_exits_witness :
  main world_no_packages empty_namespace
  = Raise (SystemExit 1
      "Error opening packages file 'container-build/packages': Permission denied").
Proof.
  eapply (unreadable_packages_file_exits world_no_packages empty_namespace
            _ _ "container-build/packages" (OSError "Permission denied"));
    by vm_compute.
Defined.

(** X7: when [main] gets to the mounts, the user id and the group id it
    goes on with are not the integer 0, and not [False] either, which
    Python compares equal to 0. *)
Theorem build_ids_nonzero w args st :
  main w args = Ok st →
  ∀ v, v = uid (ms_opts st) ∨ v = gid (ms_opts st) →
       v ≠ VInt 0 ∧ v ≠ VBool false.
Proof.
  intros Hmain v Hv.
  destruct (main_passes_only_nonzero_ids _ _ _ Hmain) as [Hu Hg].
  assert (eq_zero v = false) as Hz by (by destruct Hv as [-> | ->]).
  split; intros ->; done.
Qed.

Lemma build_ids_nonzero_witness :
  ∃ st, main base_world empty_namespace = Ok st
    ∧ uid (ms_opts st) = VInt 1000
    ∧ uid (ms_opts st) ≠ VInt 0.
Proof.
  destruct (main base_world empty_namespace) as [st|e] eqn:E;
    [|by vm_compute in E].
  exists st. split; [done|]. split.
  - vm_compute in E. by injection E as <-.
  - apply (build_ids_nonzero base_world empty_namespace st E). by left.
Defined.

(** ** The container working directory *)

Lemma joinpath_rooted p rest :
  joinpath p (String "/" rest) = joinpath (MkPath "" []) (String "/" rest).
Proof.
  unfold joinpath, splitroot. change (Ascii.eqb "/" "/") with true. cbv iota.
  by destruct (Nat.eqb _ 2).
Qed.

(** X8: the working directory is taken relative to the home directory;
    when the work-dir option is an absolute path (it starts with a
    slash) the home directory plays no part, and the container working
    directory is that path. *)
Theorem absolute_work_dir_ignores_home w args st rest :
  main w args = Ok st →
  work_dir (ms_opts st) = VStr (String "/" rest) →
  ms_work_dir st = path_str (Path [String "/" rest]).
Proof.
  intros Hmain Hwork.
  destruct (main_Ok_inv _ _ _ Hmain)
    as (_ & _ & home & work' & _ & _ & _ & _ & _ & Hwork' & -> & _).
  rewrite Hwork in Hwork'. injection Hwork' as <-.
  unfold Path. cbn [foldl]. by rewrite (joinpath_rooted _ rest).
Qed.

Lemma absolute_work_dir_ignores_home_witness :
  ∃ st, main base_world {[ "command" := VList []; "work_dir" := VStr "/work" ]}
        = Ok st
    ∧ ms_work_dir st = "/work".
Proof.
  destruct (main base_world
              {[ "command" := VList []; "work_dir" := VStr "/work" ]})
    as [st|e] eqn:E; [|by vm_compute in E].
  exists st. split; [done|].
  apply (absolute_work_dir_ignores_home base_world
           {[ "command" := VList []; "work_dir" := VStr "/work" ]} st "work");
    [done|].
  vm_compute in E. by injection E as <-.
Defined.

(** ** Packages *)

Lemma no_space_of_list l :
  Forall (fun c => is_space c = false) l →
  no_space (String.string_of_list_ascii l) = true.
Proof. induction 1 as [|c l Hc _ IH]; simpl; [done|]. by rewrite Hc, IH. Qed.

Lemma tokens_go_words s cur :
  Forall (fun c => is_space c = false) cur →
  Forall word (tokens_go s cur).
Proof.
  assert (Hflush : ∀ cur rest,
            Forall (fun c => is_space c = false) cur → Forall word rest →
            Forall word match cur with
                        | [] => rest
                        | _ => String.string_of_list_ascii (rev cur) :: rest
                        end).
  { intros [|c cur'] rest Hcur Hrest; [done|]. constructor; [|done]. split.
    - destruct (rev (c :: cur')) as [|c' l] eqn:Hrev; [|done].
      apply (f_equal length) in Hrev. rewrite length_rev in Hrev. done.
    - apply no_space_of_list. by apply Forall_rev. }
  revert cur. induction s as [|c s IH]; intros cur Hcur; simpl.
  - by apply Hflush.
  - destruct (is_space c) eqn:Hc.
    + apply Hflush; [done|]. by apply IH.
    + apply IH. by constructor.
Qed.

Lemma read_packages_words_aux w packages_path packages :
  read_packages w packages_path = Ok packages → Forall word packages.
Proof.
  unfold read_packages. intros H.
  apply bind_Ok in H as (f & _ & H). apply bind_Ok in H as (text & _ & H).
  injection H as <-. by apply tokens_go_words.
Qed.

(** X9: every package [read_packages] returns is a word: it is not empty
    and holds no white space, however the packages file is laid out. *)
Theorem read_packages_words w packages_path packages :
  read_packages w packages_path = Ok packages → Forall word packages.
Proof. apply read_packages_words_aux. Qed.

Lemma read_packages_words_witness :
  Forall word ["gcc"; "make"; "cmake"].
Proof.
  apply (read_packages_words
           (MkWorld ∅ (fun _ => false) (fun _ => IniUnreadable) 0 0 "/"
              (fun _ => None) (fun _ => false) (fun _ => Ok [])
              (fun _ => Ok (String.append "gcc  make"
                              (String "010" (String "009" "cmake "))))
              (fun _ => Ok []))
           (VStr "packages")).
  by vm_compute.
Defined.

Lemma extend_packages_inv vs acc r :
  for_each
    (fun acc package_arg => s ← as_str package_arg; Ok (acc ++ tokens s))
    vs acc = Ok r →
  ∃ strs, vs = VStr <$> strs ∧ r = acc ++ mjoin (tokens <$> strs).
Proof.
  revert acc. induction vs as [|v vs IH]; intros acc H; cbn [for_each] in H.
  - injection H as <-. exists []. by rewrite app_nil_r.
  - apply bind_Ok in H as (acc' & Hv & H).
    apply bind_Ok in Hv as (s & Hs & Hv). injection Hv as <-.
    apply as_str_Ok in Hs as ->.
    destruct (IH _ H) as (strs & -> & ->).
    exists (s :: strs). split; [done|]. simpl. by rewrite (assoc_L (++)).
Qed.

(** X10: the package list [main] hands to the Dockerfile is the words of
    the packages file followed by the words of every [--package] value,
    in the order given; a value holding several words adds them all. *)
Theorem packages_in_order w args st :
  main w args = Ok st →
  ∃ file_packages strs,
    read_packages w (packages_file (ms_opts st)) = Ok file_packages
    ∧ package (ms_opts st) = VStr <$> strs
    ∧ ms_packages st = file_packages ++ mjoin (tokens <$> strs)
    ∧ Forall word (ms_packages st).
Proof.
  intros Hmain.
  destruct (main_Ok_inv _ _ _ Hmain)
    as (_ & pk0 & _ & _ & _ & _ & Hread & Hext & _).
  destruct (extend_packages_inv _ _ _ Hext) as (strs & Hstrs & Hpk).
  exists pk0, strs. split_and!; try done.
  rewrite Hpk. apply Forall_app. split.
  - by eapply read_packages_words_aux.
  - clear. induction strs as [|s strs IH]; simpl; [done|].
    apply Forall_app. split; [by apply tokens_go_words|done].
Qed.

Lemma packages_in_order_witness :
  ∃ st, main world_packages args_two_packages = Ok st
    ∧ ms_packages st = ["gcc"; "make"; "git"; "vim"; "curl"]
    ∧ ∃ file_packages strs,
        read_packages world_packages (packages_file (ms_opts st))
          = Ok file_packages
        ∧ package (ms_opts st) = VStr <$> strs
        ∧ ms_packages st = file_packages ++ mjoin (tokens <$> strs)
        ∧ Forall word (ms_packages st).
Proof.
  destruct (main world_packages args_two_packages) as [st|e] eqn:E;
    [|by vm_compute in E].
  exists st. split; [done|]. split.
  - vm_compute in E. by injection E as <-.
  - by apply (packages_in_order world_packages args_two_packages).
Defined.
